(** * autocommand: the decorator that chains autoasync, autoparse and automain

    Shallow embedding of [src/autocommand/autocommand.py].

    The file defines one function, [autocommand], which checks that its
    [module] argument is not callable and returns the closure
    [autocommand_decorator].  The closure calls three sibling helpers
    ([autoasync], [autoparse], [automain]) and one standard-library
    function ([asyncio.get_event_loop]).  None of the four is defined in
    this file, so they are kept abstract: every call to one of them is a
    node of a program tree, and a _handler_ (any implementation of the
    helpers, stateful and possibly raising) gives the tree its meaning.
    The interpreter records every call with its outcome, so that the
    order of the wrapping steps and the data flowing between them are
    visible in the trace. *)

From Stdlib Require Import String List Bool ZArith Permutation Lia.
Import ListNotations.
Local Open Scope string_scope.
Local Open Scope list_scope.

Set Implicit Arguments.

(** ** Python values *)

(** [None], [True] and [False] are singletons, compared by identity with
    [is].  [VFun] stands for any callable object (a function, a class, an
    instance with [__call__]); [VObj] for any other heap object (an event
    loop, an [ArgumentParser]).  The number is the object's identity. *)
Inductive value : Type :=
| VNone
| VBool (b : bool)
| VInt (z : Z)
| VStr (s : string)
| VFun (id : nat)
| VObj (id : nat).

(** The builtin [callable(v)]. *)
Definition callable (v : value) : bool :=
  match v with
  | VFun _ => true
  | _ => false
  end.

(** [v is None] and [v is True]. *)
Definition is_None (v : value) : bool :=
  match v with
  | VNone => true
  | _ => false
  end.

Definition is_True (v : value) : bool :=
  match v with
  | VBool true => true
  | _ => false
  end.

Inductive exn : Type :=
| TypeError (msg : string)
| ImportError (msg : string)
| RuntimeError (msg : string)
| SystemExit (code : value).

Inductive outcome (A : Type) : Type :=
| Normal (a : A)
| Raised (e : exn).
Arguments Raised {A} e.

(** ** Calls that leave the file *)

(** Keyword arguments of [autoasync(func, loop=..., forever=...)]. *)
Record autoasync_kw : Type := AutoAsyncKw
  { kw_loop : value;
    kw_forever : value }.

(** Keyword arguments of
    [autoparse(func, description=..., epilog=..., add_nos=..., parser=...)]. *)
Record autoparse_kw : Type := AutoParseKw
  { kw_description : value;
    kw_epilog : value;
    kw_add_nos : value;
    kw_parser : value }.

(** The names [autoparse] and [automain] are bound when the module is
    loaded; [get_event_loop] and [autoasync] are bound by two imports
    inside the decorator, which run (and may fail) only when the
    event-loop step is taken.  A call names the helper it reaches; the
    imports appear as calls of their own, their value unused. *)
Inductive call : Type :=
| Import (module name : string)          (* from module import name *)
| GetEventLoop                           (* get_event_loop() *)
| AutoAsync (func : value) (kw : autoasync_kw)
| AutoParse (func : value) (kw : autoparse_kw)
| AutoMain (module : value)              (* automain(module) *)
| Apply (f x : value).                   (* f(x), f a computed value *)

(** ** Programs *)

Inductive prog (A : Type) : Type :=
| Ret (a : A)
| Raise (e : exn)
| Do (c : call) (k : value -> prog A).
Arguments Raise {A} e.

Fixpoint bind {A B : Type} (p : prog A) (f : A -> prog B) : prog B :=
  match p with
  | Ret a => f a
  | Raise e => Raise e
  | Do c k => Do c (fun v => bind (k v) f)
  end.

Definition perform (c : call) : prog value := Do c (fun v => Ret v).

Declare Scope prog_scope.
Delimit Scope prog_scope with prog.
Notation "x <- p ;; q" := (bind p (fun x => q))
  (at level 61, p at next level, right associativity) : prog_scope.
Notation "p ;; q" := (bind p (fun _ => q))
  (at level 61, right associativity) : prog_scope.
Local Open Scope prog_scope.

(** ** The source *)

(** The keyword-only parameters of [autocommand]. *)
Record options : Type := Options
  { description : value;
    epilog : value;
    add_nos : value;
    parser : value;
    loop : value;
    forever : value }.

(** [description=None, epilog=None, add_nos=False, parser=None,
     loop=None, forever=False] *)
Definition default_options : options :=
  {| description := VNone;
     epilog := VNone;
     add_nos := VBool false;
     parser := VNone;
     loop := VNone;
     forever := VBool false |}.

Definition requires_module_name : string :=
  "autocommand requires a module name argument".

(** The closure [autocommand_decorator(func)], with the variables it
    captures ([module] and the keyword arguments) as parameters. *)
Definition autocommand_decorator
    (module : value) (o : options) (func : value) : prog value :=
  (* Step 1 *)
  func <- (if negb (is_None (loop o)) then
             perform (Import "asyncio" "get_event_loop") ;;
             perform (Import ".autoasync" "autoasync") ;;
             l <- (if is_True (loop o) then perform GetEventLoop
                   else Ret (loop o)) ;;
             perform (AutoAsync func
                        {| kw_loop := l;
                           kw_forever := forever o |})
           else Ret func) ;;
  (* Step 2 *)
  func <- perform (AutoParse func
                     {| kw_description := description o;
                        kw_epilog := epilog o;
                        kw_add_nos := add_nos o;
                        kw_parser := parser o |}) ;;
  (* Step 3 *)
  dec <- perform (AutoMain module) ;;
  func <- perform (Apply dec func) ;;
  Ret func.

Definition autocommand
    (module : value) (o : options) : prog (value -> prog value) :=
  if callable module then
    Raise (TypeError requires_module_name)
  else
    Ret (autocommand_decorator module o).

(** ** Running a program against an implementation of the helpers *)

Definition event : Type := call * outcome value.

Record result (W A : Type) : Type := Result
  { res : outcome A;       (* what the program returned or raised *)
    final : W;             (* the state it left behind *)
    trace : list event }.  (* the calls it made, oldest first *)

Section Run.

Variable W : Type.

(** A handler answers one call in a state: it returns or raises, and
    leaves a new state. *)
Definition handler : Type := call -> W -> outcome value * W.

Variable h : handler.

Fixpoint run {A : Type} (p : prog A) (w : W) : result W A :=
  match p with
  | Ret a => Result (Normal a) w []
  | Raise e => Result (Raised e) w []
  | Do c k =>
      match h c w with
      | (Normal v, w1) =>
          let r := run (k v) w1 in
          Result (res r) (final r) ((c, Normal v) :: trace r)
      | (Raised e, w1) =>
          Result (Raised e) w1 [(c, Raised e)]
      end
  end.

End Run.

(** A handler under which no call raises. *)
Definition total_handler (W : Type) : Type := call -> W -> value * W.

Definition lift (W : Type) (t : total_handler W) : handler W :=
  fun c w => let (v, w1) := t c w in (Normal v, w1).

(** A stateless implementation: the answer depends on the call alone. *)
Definition pure_handler (F : call -> value) : handler unit :=
  fun c w => (Normal (F c), w).

Definition calls (tr : list event) : list call := map fst tr.

(** *** Concrete implementations, to run the model on *)

(** Every helper returns a freshly allocated object: a callable for the
    wrappers, a plain object for the event loop.  The state is the next
    free identity. *)
Definition fresh : total_handler nat :=
  fun c n =>
    match c with
    | GetEventLoop => (VObj n, S n)
    | _ => (VFun n, S n)
    end.

(** As [fresh], except that the calls selected by [bad] raise. *)
Definition fresh_except (bad : call -> bool) : handler nat :=
  fun c n =>
    if bad c then (Raised (RuntimeError "failed"), n)
    else lift fresh c n.

(** A stateless implementation that keeps the wrapped function's identity
    apart: [autoasync] adds 100, [autoparse] 200, the decorator made by
    [automain] 300. *)
Definition tagging (c : call) : value :=
  match c with
  | AutoAsync (VFun n) _ => VFun (100 + n)
  | AutoParse (VFun n) _ => VFun (200 + n)
  | AutoMain _ => VFun 0
  | Apply (VFun 0) (VFun n) => VFun (300 + n)
  | GetEventLoop => VObj 7
  | _ => VNone
  end.

(** Concrete arguments: [autocommand(__name__, loop=True, forever=True,
    description="demo")] in a script, and a second parser configuration. *)
Definition main_module : value := VStr "__main__".

Definition looping : options :=
  {| description := VStr "demo";
     epilog := VNone;
     add_nos := VBool false;
     parser := VNone;
     loop := VBool true;
     forever := VBool true |}.

Definition given_loop : options :=
  {| description := VNone;
     epilog := VNone;
     add_nos := VBool false;
     parser := VNone;
     loop := VObj 9;
     forever := VBool false |}.

Definition forever_only : options :=
  {| description := VNone;
     epilog := VNone;
     add_nos := VBool false;
     parser := VNone;
     loop := VNone;
     forever := VBool true |}.

Definition other_parser_options : autoparse_kw :=
  {| kw_description := VStr "other";
     kw_epilog := VStr "see also";
     kw_add_nos := VBool true;
     kw_parser := VObj 5 |}.

(** ** Vocabulary of the properties *)

(** [autocommand(module, **o)(func)]: build the decorator, then apply it,
    as [@autocommand(module, ...)] above a [def] does. *)
Definition decorated (module : value) (o : options) (func : value)
  : prog value :=
  dec <- autocommand module o ;;
  dec func.

(** The parser configuration as [autoparse] should receive it. *)
Definition parser_options (o : options) : autoparse_kw :=
  {| kw_description := description o;
     kw_epilog := epilog o;
     kw_add_nos := add_nos o;
     kw_parser := parser o |}.

(** The three wrapping steps. *)
Inductive wrapper : Type := ByAutoAsync | ByAutoParse | ByAutoMain.

Definition wrapper_of (c : call) : option wrapper :=
  match c with
  | AutoAsync _ _ => Some ByAutoAsync
  | AutoParse _ _ => Some ByAutoParse
  | AutoMain _ => Some ByAutoMain
  | _ => None
  end.

(** The wrapping steps a sequence of calls goes through, in order. *)
Fixpoint wrappers (cs : list call) : list wrapper :=
  match cs with
  | [] => []
  | c :: cs' =>
      match wrapper_of c with
      | Some k => k :: wrappers cs'
      | None => wrappers cs'
      end
  end.

(** Calls that only prepare the [autoasync] step: the two local imports
    and [get_event_loop()]. *)
Definition is_preparation (c : call) : bool :=
  match c with
  | Import _ _ | GetEventLoop => true
  | _ => false
  end.

Definition is_autoasync (c : call) : bool :=
  match c with
  | AutoAsync _ _ => true
  | _ => false
  end.

Definition is_autoparse (c : call) : bool :=
  match c with
  | AutoParse _ _ => true
  | _ => false
  end.

Definition is_automain (c : call) : bool :=
  match c with
  | AutoMain _ => true
  | _ => false
  end.

Definition is_get_event_loop (c : call) : bool :=
  match c with
  | GetEventLoop => true
  | _ => false
  end.

(** How many calls of a kind a sequence holds. *)
Definition count (kind : call -> bool) (cs : list call) : nat :=
  length (filter kind cs).

(** The helpers as the functions a stateless implementation [F] makes of
    them, to write nested applications with. *)
Section Stateless.

Variable F : call -> value.

Definition get_event_loop_of : value := F GetEventLoop.

Definition autoasync_of (func l fv : value) : value :=
  F (AutoAsync func {| kw_loop := l; kw_forever := fv |}).

Definition autoparse_of (func : value) (kw : autoparse_kw) : value :=
  F (AutoParse func kw).

(** [automain(module)(func)] *)
Definition automain_of (module func : value) : value :=
  F (Apply (F (AutoMain module)) func).

End Stateless.

(** [o] with another parser configuration. *)
Definition with_parser_options (o : options) (kw : autoparse_kw) : options :=
  {| description := kw_description kw;
     epilog := kw_epilog kw;
     add_nos := kw_add_nos kw;
     parser := kw_parser kw;
     loop := loop o;
     forever := forever o |}.

(** The events of a trace that come before the first [autoparse] call. *)
Fixpoint before_autoparse (tr : list event) : list event :=
  match tr with
  | [] => []
  | ev :: tr' =>
      if is_autoparse (fst ev) then [] else ev :: before_autoparse tr'
  end.

(** ** The call of [autocommand] *)

(** [def autocommand(module, *, description=None, epilog=None,
    add_nos=False, parser=None, loop=None, forever=False)]: one parameter
    that may be given by position or by name, six that are keyword-only,
    each with a default.  A call brings positional arguments and keyword
    arguments; binding them to the parameters is the interpreter's work,
    done before the body runs, and every failure of it is a [TypeError].
    The interpreter words the messages; the texts below are shortened. *)
Definition parameters : list string :=
  ["module"; "description"; "epilog"; "add_nos"; "parser"; "loop"; "forever"].

Definition unexpected_keyword (k : string) : exn :=
  TypeError ("autocommand() got an unexpected keyword argument " ++ k).

Definition multiple_values (k : string) : exn :=
  TypeError ("autocommand() got multiple values for argument " ++ k).

Definition too_many_positional : exn :=
  TypeError "autocommand() takes 1 positional argument".

Definition missing_module : exn :=
  TypeError "autocommand() missing 1 required positional argument: module".

Definition mem (k : string) (ks : list string) : bool :=
  existsb (String.eqb k) ks.

Fixpoint lookup (k : string) (kwargs : list (string * value)) : option value :=
  match kwargs with
  | [] => None
  | (k', v) :: rest => if String.eqb k k' then Some v else lookup k rest
  end.

(** The keyword arguments are taken in the order of the call; [filled]
    holds the parameters that already have a value. *)
Fixpoint check_keywords (filled : list string)
    (kwargs : list (string * value)) : option exn :=
  match kwargs with
  | [] => None
  | (k, _) :: rest =>
      if negb (mem k parameters) then Some (unexpected_keyword k)
      else if mem k filled then Some (multiple_values k)
      else check_keywords (k :: filled) rest
  end.

Definition keyword (k : string) (default : value)
    (kwargs : list (string * value)) : value :=
  match lookup k kwargs with
  | Some v => v
  | None => default
  end.

Definition options_of (kwargs : list (string * value)) : options :=
  {| description := keyword "description" VNone kwargs;
     epilog := keyword "epilog" VNone kwargs;
     add_nos := keyword "add_nos" (VBool false) kwargs;
     parser := keyword "parser" VNone kwargs;
     loop := keyword "loop" VNone kwargs;
     forever := keyword "forever" (VBool false) kwargs |}.

Definition bind_arguments (args : list value)
    (kwargs : list (string * value)) : outcome (value * options) :=
  match check_keywords (match args with [] => [] | _ => ["module"] end)
          kwargs with
  | Some e => Raised e
  | None =>
      match args with
      | _ :: _ :: _ => Raised too_many_positional
      | [m] => Normal (m, options_of kwargs)
      | [] =>
          match lookup "module" kwargs with
          | Some m => Normal (m, options_of kwargs)
          | None => Raised missing_module
          end
      end
  end.

(** [autocommand], called with the positional arguments [args] and the
    keyword arguments [kwargs]. *)
Definition call_autocommand (args : list value)
    (kwargs : list (string * value)) : prog (value -> prog value) :=
  match bind_arguments args kwargs with
  | Normal (m, o) => autocommand m o
  | Raised e => Raise e
  end.

(** The same call, and its result applied to [func]. *)
Definition called (args : list value) (kwargs : list (string * value))
    (func : value) : prog value :=
  dec <- call_autocommand args kwargs ;;
  dec func.

(** ** More vocabulary *)

Definition is_import (c : call) : bool :=
  match c with
  | Import _ _ => true
  | _ => false
  end.

Definition is_apply (c : call) : bool :=
  match c with
  | Apply _ _ => true
  | _ => false
  end.

(** Everything but the last event. *)
Fixpoint earlier (tr : list event) : list event :=
  match tr with
  | [] => []
  | [_] => []
  | ev :: tr' => ev :: earlier tr'
  end.

(** The events of a trace that come before the first [automain] call. *)
Fixpoint before_automain (tr : list event) : list event :=
  match tr with
  | [] => []
  | ev :: tr' =>
      if is_automain (fst ev) then [] else ev :: before_automain tr'
  end.

(** Keyword arguments for the concrete runs. *)
Definition demo_keywords : list (string * value) :=
  [("forever", VBool true); ("description", VStr "demo")].

(** A run of the decorator that wraps [func] and returns [v]: its last
    three calls are [autoparse] on the function, [automain(module)] and
    the application of what [automain] returned to what [autoparse]
    returned; [v] is the value of that application.  The function
    [autoparse] receives is [func] itself when [loop] is [None] and
    otherwise what [autoasync(func, ...)] returned; before that call the
    run holds nothing but the two imports and [get_event_loop()]. *)
Definition wraps (W : Type) (module : value) (o : options) (func : value)
    (r : result W value) (v : value) : Prop :=
  res r = Normal v
  /\ exists pre f1 f2 dec,
      trace r = pre ++ [(AutoParse f1 (parser_options o), Normal f2);
                        (AutoMain module, Normal dec);
                        (Apply dec f2, Normal v)]
      /\ if is_None (loop o) then pre = [] /\ f1 = func
         else exists prep l,
             pre = prep ++ [(AutoAsync func
                               {| kw_loop := l; kw_forever := forever o |},
                             Normal f1)]
             /\ forallb is_preparation (calls prep) = true.

(** A trace with its calls rewritten, the outcomes kept. *)
Definition map_calls (f : call -> call) (tr : list event) : list event :=
  map (fun ev => (f (fst ev), snd ev)) tr.

(** A call without the parser configuration [autoparse] was given. *)
Definition forget_parser_options (c : call) : call :=
  match c with
  | AutoParse f _ => AutoParse f (AutoParseKw VNone VNone VNone VNone)
  | _ => c
  end.

(** A call without the module [automain] was given. *)
Definition forget_module (c : call) : call :=
  match c with
  | AutoMain _ => AutoMain VNone
  | _ => c
  end.

(** ** Running programs: general facts *)

Section RunFacts.

Variable W : Type.
Variable h : handler W.

Lemma run_bind (A B : Type) (p : prog A) (f : A -> prog B) (w : W) :
  run h (bind p f) w =
  match res (run h p w) with
  | Normal a =>
      let r := run h (f a) (final (run h p w)) in
      Result (res r) (final r) (trace (run h p w) ++ trace r)
  | Raised e =>
      Result (Raised e) (final (run h p w)) (trace (run h p w))
  end.
Proof.
  revert w; induction p as [a | e | c k IH]; intro w; simpl.
  - destruct (run h (f a) w); reflexivity.
  - reflexivity.
  - destruct (h c w) as [[v | e] w1]; simpl; [ | reflexivity].
    rewrite IH.
    destruct (res (run h (k v) w1)); reflexivity.
Qed.

Lemma run_perform (c : call) (w : W) :
  run h (perform c) w =
  Result (fst (h c w)) (snd (h c w)) [(c, fst (h c w))].
Proof.
  unfold perform; simpl.
  destruct (h c w) as [[v | e] w1]; reflexivity.
Qed.

End RunFacts.

(** One answer of the handler at a time. *)
Ltac answer :=
  match goal with
  | |- context [match ?h ?c ?w with pair _ _ => _ end] =>
      let v := fresh "v" in
      let e := fresh "e" in
      let w1 := fresh "w" in
      let E := fresh "E" in
      destruct (h c w) as [[v | e] w1] eqn:E; simpl
  | |- context [let (_, _) := ?t ?c ?w in _] =>
      let v := fresh "v" in
      let w1 := fresh "w" in
      let E := fresh "E" in
      destruct (t c w) as [v w1] eqn:E; simpl
  end.

Ltac by_loop o :=
  let E := fresh "Eloop" in
  destruct (loop o) as [ | [ | ] | ? | ? | ? | ? ] eqn:E; simpl.

Ltac open_decorator :=
  unfold decorated, autocommand, autocommand_decorator, perform, lift,
    pure_handler in *; simpl.

(** ** Concrete runs *)

Example run_default :
  run (lift fresh) (decorated main_module default_options (VFun 0)) 1 =
  Result (Normal (VFun 3)) 4
    [(AutoParse (VFun 0)
        (AutoParseKw VNone VNone (VBool false) VNone), Normal (VFun 1));
     (AutoMain (VStr "__main__"), Normal (VFun 2));
     (Apply (VFun 2) (VFun 1), Normal (VFun 3))].
Proof. reflexivity. Qed.

Example run_looping :
  run (lift fresh) (decorated main_module looping (VFun 0)) 1 =
  Result (Normal (VFun 7)) 8
    [(Import "asyncio" "get_event_loop", Normal (VFun 1));
     (Import ".autoasync" "autoasync", Normal (VFun 2));
     (GetEventLoop, Normal (VObj 3));
     (AutoAsync (VFun 0) (AutoAsyncKw (VObj 3) (VBool true)),
      Normal (VFun 4));
     (AutoParse (VFun 4)
        (AutoParseKw (VStr "demo") VNone (VBool false) VNone),
      Normal (VFun 5));
     (AutoMain (VStr "__main__"), Normal (VFun 6));
     (Apply (VFun 6) (VFun 5), Normal (VFun 7))].
Proof. reflexivity. Qed.

Example run_given_loop :
  calls (trace (run (lift fresh)
                  (decorated main_module given_loop (VFun 0)) 1)) =
  [Import "asyncio" "get_event_loop";
   Import ".autoasync" "autoasync";
   AutoAsync (VFun 0) (AutoAsyncKw (VObj 9) (VBool false));
   AutoParse (VFun 3) (AutoParseKw VNone VNone (VBool false) VNone);
   AutoMain (VStr "__main__");
   Apply (VFun 5) (VFun 4)].
Proof. reflexivity. Qed.

(** [1 is True] is false: the integer is handed on as the loop. *)
Example run_loop_one :
  wrappers (calls (trace (run (lift fresh)
     (autocommand_decorator main_module
        (Options VNone VNone (VBool false) VNone (VInt 1) (VBool false))
        (VFun 0)) 1))) = [ByAutoAsync; ByAutoParse; ByAutoMain]
  /\ In (AutoAsync (VFun 0) (AutoAsyncKw (VInt 1) (VBool false)))
       (calls (trace (run (lift fresh)
          (autocommand_decorator main_module
             (Options VNone VNone (VBool false) VNone (VInt 1) (VBool false))
             (VFun 0)) 1))).
Proof. split; [reflexivity | simpl; auto]. Qed.

(** A raising [get_event_loop()] ends the decoration before any
    wrapping. *)
Example run_no_current_loop :
  run (fresh_except is_get_event_loop)
    (decorated main_module looping (VFun 0)) 1 =
  Result (Raised (RuntimeError "failed")) 3
    [(Import "asyncio" "get_event_loop", Normal (VFun 1));
     (Import ".autoasync" "autoasync", Normal (VFun 2));
     (GetEventLoop, Raised (RuntimeError "failed"))].
Proof. reflexivity. Qed.

Example run_callable_module :
  run (lift fresh) (decorated (VFun 4) looping (VFun 0)) 1 =
  Result (Raised (TypeError requires_module_name)) 1 [].
Proof. reflexivity. Qed.

Example run_tagging :
  res (run (pure_handler tagging) (decorated main_module looping (VFun 0)) tt)
    = Normal (VFun 600)
  /\ res (run (pure_handler tagging)
            (decorated main_module default_options (VFun 0)) tt)
    = Normal (VFun 500).
Proof. split; reflexivity. Qed.

(** ** The callable check *)

(** C2. [autocommand(module, ...)] raises [TypeError] exactly when
    [module] is callable.  For every other [module] it raises nothing and
    returns the decorator.  In both cases it has called none of the
    helpers and has left the state as it was: no wrapping happens before
    the check, nor in [autocommand] at all. *)
Theorem autocommand_checks_module
    (W : Type) (h : handler W) (module : value) (o : options) (w : W) :
  let r := run h (autocommand module o) w in
  ((exists msg, res r = Raised (TypeError msg)) <-> callable module = true)
  /\ ((exists e, res r = Raised e) <-> callable module = true)
  /\ (res r = Normal (autocommand_decorator module o)
      <-> callable module = false)
  /\ trace r = []
  /\ final r = w.
Proof.
  unfold autocommand; destruct (callable module); simpl.
  - repeat split; try reflexivity; try discriminate; eauto.
  - repeat split; try reflexivity; try discriminate;
      intros [x Hx]; discriminate.
Qed.


Lemma autocommand_checks_module_witness :
  (exists msg,
      res (run (lift fresh) (autocommand (VFun 4) looping) 1)
        = Raised (TypeError msg))
  /\ res (run (lift fresh) (autocommand main_module looping) 1)
       = Normal (autocommand_decorator main_module looping)
  /\ trace (run (lift fresh) (autocommand (VFun 4) looping) 1) = [].
Proof.
  pose proof (autocommand_checks_module (lift fresh) (VFun 4) looping 1)
    as Hc.
  pose proof (autocommand_checks_module (lift fresh) main_module looping 1)
    as Hm.
  cbv zeta in Hc, Hm.
  destruct Hc as (Hc1 & _ & _ & Hc4 & _).
  destruct Hm as (_ & _ & Hm3 & _).
  split; [apply Hc1; reflexivity | ].
  split; [apply Hm3; reflexivity | exact Hc4].
Defined.

(** ** The wrapping steps *)

(** The handler's answers decide the run; a raised answer ends it. *)
Ltac analyse o :=
  open_decorator; by_loop o; repeat answer.

Ltac absurd_return :=
  match goal with
  | H : exists _, Raised _ = Normal _ |- _ =>
      destruct H as [? H]; discriminate H
  | H : Raised _ = Normal _ |- _ => discriminate H
  | H : ?x <> ?x |- _ => now elim H
  | H : ?x = ?y, H' : ?x <> ?y |- _ => now elim H'
  end.

(** C1. For a [module] that is not callable and any [func], the decorator
    goes through the wrapping steps in one order: [autoasync] (only when
    [loop] is not [None]), then [autoparse], then [automain(module)].
    Under any implementation of the helpers the steps taken are an
    initial part of that sequence; they are the whole sequence whenever
    the decorator returns, and it does return when no helper raises.
    Each step receives what the step before returned, and the decorator
    returns what the application of [automain(module)] returned.  With
    stateless helpers this value is
    [automain(module)(autoparse(autoasync(func, ...), ...))] when [loop]
    is not [None] and [automain(module)(autoparse(func, ...))] when it
    is. *)
Theorem decorator_wraps_in_order
    (W : Type) (h : handler W) (t : total_handler W) (F : call -> value)
    (module : value) (o : options) (func : value) (w : W) :
  callable module = false ->
  let steps := (if is_None (loop o) then [] else [ByAutoAsync])
                 ++ [ByAutoParse; ByAutoMain] in
  let r := run h (decorated module o func) w in
  (exists later, wrappers (calls (trace r)) ++ later = steps)
  /\ (forall f3, res r = Normal f3 ->
      wrappers (calls (trace r)) = steps
      /\ exists pre f1 f2 dec,
          trace r = pre ++ [(AutoParse f1 (parser_options o), Normal f2);
                            (AutoMain module, Normal dec);
                            (Apply dec f2, Normal f3)]
          /\ if is_None (loop o) then pre = [] /\ f1 = func
             else exists prep l,
                 pre = prep ++ [(AutoAsync func
                                   {| kw_loop := l;
                                      kw_forever := forever o |},
                                 Normal f1)]
                 /\ forallb is_preparation (calls prep) = true)
  /\ (exists f3, res (run (lift t) (decorated module o func) w) = Normal f3)
  /\ res (run (pure_handler F) (decorated module o func) tt) =
     Normal
       (if is_None (loop o) then
          automain_of F module (autoparse_of F func (parser_options o))
        else
          automain_of F module
            (autoparse_of F
               (autoasync_of F func
                  (if is_True (loop o) then get_event_loop_of F else loop o)
                  (forever o))
               (parser_options o))).
Proof.
  intros Hmod steps r; subst steps r.
  repeat split.
  - open_decorator; rewrite Hmod; simpl.
    by_loop o; repeat answer; eexists; reflexivity.
  - revert H. open_decorator; rewrite Hmod; simpl.
    by_loop o; repeat answer; intro; try absurd_return; reflexivity.
  - revert H. open_decorator; rewrite Hmod; simpl.
    unfold parser_options.
    by_loop o; repeat answer; intro H; try absurd_return;
      injection H as <-.
    all: match goal with
         | |- exists _ _ _ _, [_; _; _] = _ /\ _ =>
             exists []; do 3 eexists; repeat split
         | |- exists _ _ _ _, [?a; ?b; ?c; ?d; _; _; _] = _ /\ _ =>
             exists [a; b; c; d]; do 3 eexists;
             split; [reflexivity | ];
             exists [a; b; c]; eexists; split; reflexivity
         | |- exists _ _ _ _, [?a; ?b; ?d; _; _; _] = _ /\ _ =>
             exists [a; b; d]; do 3 eexists;
             split; [reflexivity | ];
             exists [a; b]; eexists; split; reflexivity
         end.
  - open_decorator; rewrite Hmod; simpl.
    by_loop o; repeat answer; eexists; reflexivity.
  - open_decorator; rewrite Hmod; simpl.
    by_loop o; reflexivity.
Qed.


Lemma decorator_wraps_in_order_witness :
  callable main_module = false
  /\ wrappers (calls (trace (run (lift fresh)
                            (decorated main_module looping (VFun 0)) 1)))
     = [ByAutoAsync; ByAutoParse; ByAutoMain]
  /\ (exists later,
        wrappers (calls (trace (run (fresh_except is_autoparse)
                                 (decorated main_module looping (VFun 0)) 1)))
          ++ later
        = [ByAutoAsync; ByAutoParse; ByAutoMain])
  /\ res (run (pure_handler tagging)
            (decorated main_module looping (VFun 0)) tt)
     = Normal (VFun 600).
Proof.
  pose proof (@decorator_wraps_in_order nat (lift fresh) fresh tagging
                main_module looping (VFun 0) 1 eq_refl) as Hf.
  pose proof (@decorator_wraps_in_order nat (fresh_except is_autoparse)
                fresh tagging main_module looping (VFun 0) 1 eq_refl) as Hx.
  cbv zeta in Hf, Hx.
  destruct Hf as (_ & Hf2 & _ & Hf4).
  destruct Hx as (Hx1 & _).
  split; [reflexivity | ].
  split; [exact (proj1 (Hf2 (VFun 7) eq_refl)) | ].
  split; [exact Hx1 | exact Hf4].
Defined.

(** ** The optional event-loop step *)

Lemma is_None_true (v : value) : is_None v = true <-> v = VNone.
Proof.
  destruct v; simpl; split; intro H; try reflexivity; discriminate H.
Qed.

(** The decorator looks at [loop] twice: is it [None], is it [True]. *)
Ltac by_kind o :=
  let N := fresh "Enone" in
  let T := fresh "Etrue" in
  destruct (is_None (loop o)) eqn:N; simpl;
  [ | destruct (is_True (loop o)) eqn:T; simpl ].

Ltac inspect o := open_decorator; by_kind o; repeat answer.

(** Once the check has passed, decorating is the decorator's work. *)
Lemma run_decorated
    (W : Type) (h : handler W)
    (module : value) (o : options) (func : value) (w : W) :
  callable module = false ->
  run h (decorated module o func) w =
  run h (autocommand_decorator module o func) w.
Proof.
  intro Hmod. unfold decorated, autocommand. rewrite Hmod. reflexivity.
Qed.

(** A decorator that returns has wrapped [func], whatever the helpers
    are. *)
Lemma returning_run_wraps
    (W : Type) (h : handler W)
    (module : value) (o : options) (func : value) (w : W) (v : value) :
  res (run h (autocommand_decorator module o func) w) = Normal v ->
  wraps module o func (run h (autocommand_decorator module o func) w) v.
Proof.
  unfold wraps, parser_options.
  inspect o; intro H; try discriminate H; injection H as <-;
    (split; [reflexivity | ]).
  all: match goal with
       | |- exists _ _ _ _, [_; _; _] = _ /\ _ =>
           exists []; do 3 eexists; repeat split
       | |- exists _ _ _ _, [?a; ?b; ?c; ?d; _; _; _] = _ /\ _ =>
           exists [a; b; c; d]; do 3 eexists;
           split; [reflexivity | ];
           exists [a; b; c]; eexists; split; reflexivity
       | |- exists _ _ _ _, [?a; ?b; ?d; _; _; _] = _ /\ _ =>
           exists [a; b; d]; do 3 eexists;
           split; [reflexivity | ];
           exists [a; b]; eexists; split; reflexivity
       end.
Qed.

(** When no helper raises, the decorator returns. *)
Lemma total_run_returns
    (W : Type) (t : total_handler W)
    (module : value) (o : options) (func : value) (w : W) :
  exists v,
    res (run (lift t) (autocommand_decorator module o func) w) = Normal v.
Proof.
  inspect o; eexists; reflexivity.
Qed.

(** C3. The [autoasync] step depends on [loop] alone, and what it returns
    takes the place of [func].  When no helper raises, [autoasync] is
    called if and only if [loop] is not [None].  Under any implementation
    of the helpers: a call of [autoasync] means that [loop] is not [None],
    and it is applied to [func]; when [loop] is not [None] and the
    decorator returns, [autoasync] was applied to [func]; when [loop] is
    [None] the run holds no [autoasync] call, no import of it and no
    [get_event_loop()], and [func] goes to [autoparse] as it came.  What
    [autoparse] receives is [func] itself when [loop] is [None], and
    otherwise what [autoasync(func, ...)] returned, never [func]
    unwrapped.  A decorator that returns has gone on from there: it
    returns what [automain(module)] made of what [autoparse] returned; and
    the decorator does return when no helper raises. *)
Theorem autoasync_iff_loop
    (W : Type) (h : handler W) (t : total_handler W)
    (module : value) (o : options) (func : value) (w : W) :
  let r := run h (autocommand_decorator module o func) w in
  let rt := run (lift t) (autocommand_decorator module o func) w in
  (existsb is_autoasync (calls (trace rt)) = true <-> loop o <> VNone)
  /\ (forall f kw, In (AutoAsync f kw) (calls (trace r)) ->
      loop o <> VNone /\ f = func)
  /\ (loop o <> VNone -> (exists v, res r = Normal v) ->
      exists kw, In (AutoAsync func kw) (calls (trace r)))
  /\ (loop o = VNone ->
      forallb (fun c => negb (is_autoasync c || is_preparation c))
        (calls (trace r)) = true
      /\ hd_error (calls (trace r)) =
         Some (AutoParse func (parser_options o)))
  /\ (forall inner kw, In (AutoParse inner kw) (calls (trace r)) ->
      if is_None (loop o) then inner = func
      else exists akw, In (AutoAsync func akw, Normal inner) (trace r))
  /\ (forall v, res r = Normal v -> wraps module o func r v)
  /\ (exists v, wraps module o func rt v).
Proof.
  intros r rt; subst r rt.
  split; [ | split; [ | split; [ | split; [ | split; [ | split]]]]].
  - analyse o; split; intro H; try reflexivity; try discriminate;
      try (intro; discriminate).
    now elim H.
  - intros f kw. analyse o; intro H.
    all: repeat (destruct H as [H | H]; try discriminate H);
      try contradiction.
    all: injection H as <- _; split; [intro; discriminate | reflexivity].
  - intros Hl Hr; revert Hr. analyse o; intro Hr; try absurd_return.
    all: eexists; simpl; eauto 6.
  - intro Hl. open_decorator. rewrite Hl; simpl.
    repeat answer; split; reflexivity.
  - intros inner kw. inspect o; intro H.
    all: repeat (destruct H as [H | H]; try discriminate H);
      try contradiction.
    all: injection H as <- _; try reflexivity; eexists; simpl; eauto 10.
  - intros v Hv. apply returning_run_wraps. exact Hv.
  - destruct (total_run_returns t module o func w) as [v Hv].
    exists v. apply returning_run_wraps. exact Hv.
Qed.

Lemma autoasync_iff_loop_witness :
  existsb is_autoasync
    (calls (trace (run (lift fresh)
                     (autocommand_decorator main_module looping (VFun 0)) 1)))
    = true
  /\ (exists kw,
        In (AutoAsync (VFun 0) kw)
          (calls (trace (run (lift fresh)
             (autocommand_decorator main_module given_loop (VFun 0)) 1))))
  /\ hd_error
       (calls (trace (run (fresh_except is_automain)
          (autocommand_decorator main_module forever_only (VFun 0)) 1)))
     = Some (AutoParse (VFun 0) (parser_options forever_only))
  /\ wraps main_module looping (VFun 0)
       (run (lift fresh)
          (autocommand_decorator main_module looping (VFun 0)) 1)
       (VFun 7).
Proof.
  pose proof (autoasync_iff_loop (lift fresh) fresh
                main_module looping (VFun 0) 1) as Hl.
  pose proof (autoasync_iff_loop (lift fresh) fresh
                main_module given_loop (VFun 0) 1) as Hg.
  pose proof (autoasync_iff_loop (fresh_except is_automain) fresh
                main_module forever_only (VFun 0) 1) as Hn.
  cbv zeta in Hl, Hg, Hn.
  destruct Hl as (Hl1 & _ & _ & _ & _ & Hl6 & _).
  destruct Hg as (_ & _ & Hg3 & _).
  destruct Hn as (_ & _ & _ & Hn4 & _).
  split; [apply Hl1; discriminate | ].
  split; [apply Hg3; [discriminate | exists (VFun 6); reflexivity] | ].
  split; [exact (proj2 (Hn4 eq_refl)) | ].
  exact (Hl6 (VFun 7) eq_refl).
Defined.

(** C4. For a [module] that is not callable and any [func], [autoparse]
    and [automain(module)] are applied whatever the keyword arguments
    are.  When no helper raises, the decorator returns, and the run holds
    exactly one [autoparse] call, exactly one [automain] call, which is
    [automain(module)], and one application of its result; [autoasync]
    alone is called once or not at all, by [loop].  The one [autoparse]
    call is on the function ([func], or what [autoasync] made of it), the
    one application is of what [automain(module)] returned to what
    [autoparse] returned, and its value is what the decorator returns.
    Under any implementation of the helpers the same holds of every run
    in which the decorator returns. *)
Theorem autoparse_automain_unconditional
    (W : Type) (h : handler W) (t : total_handler W)
    (module : value) (o : options) (func : value) (w : W) :
  callable module = false ->
  let r := run h (decorated module o func) w in
  let rt := run (lift t) (decorated module o func) w in
  let once (tr : list event) :=
    count is_autoparse (calls tr) = 1
    /\ filter is_automain (calls tr) = [AutoMain module]
    /\ (exists dec f,
          In (AutoMain module, Normal dec) tr /\ In (Apply dec f) (calls tr))
    /\ count is_autoasync (calls tr) = (if is_None (loop o) then 0 else 1) in
  once (trace rt)
  /\ (exists v, wraps module o func rt v)
  /\ (forall v, res r = Normal v ->
      once (trace r) /\ wraps module o func r v).
Proof.
  intros Hmod r rt once; subst r rt once; cbv beta.
  rewrite !run_decorated by exact Hmod.
  assert (Hany : forall (h0 : handler W) v,
            res (run h0 (autocommand_decorator module o func) w) = Normal v ->
            (count is_autoparse
               (calls (trace (run h0 (autocommand_decorator module o func) w)))
             = 1
             /\ filter is_automain
                  (calls (trace (run h0 (autocommand_decorator module o func)
                                   w)))
                = [AutoMain module]
             /\ (exists dec f,
                   In (AutoMain module, Normal dec)
                     (trace (run h0 (autocommand_decorator module o func) w))
                   /\ In (Apply dec f)
                        (calls (trace (run h0 (autocommand_decorator module o
                                                 func) w))))
             /\ count is_autoasync
                  (calls (trace (run h0 (autocommand_decorator module o func)
                                   w)))
                = (if is_None (loop o) then 0 else 1))
            /\ wraps module o func
                 (run h0 (autocommand_decorator module o func) w) v).
  { intros h0 v Hv. split; [ | apply returning_run_wraps; exact Hv].
    revert Hv. clear h. rename h0 into h.
    inspect o; intro Hv; try discriminate Hv;
      repeat split; try (do 2 eexists; split; simpl; eauto 10). }
  destruct (total_run_returns t module o func w) as [vt Hvt].
  split; [exact (proj1 (Hany (lift t) vt Hvt)) | split].
  - exists vt. exact (proj2 (Hany (lift t) vt Hvt)).
  - intros v Hv. exact (Hany h v Hv).
Qed.

Lemma autoparse_automain_unconditional_witness :
  callable main_module = false
  /\ count is_autoparse
       (calls (trace (run (lift fresh)
                        (decorated main_module looping (VFun 0)) 1))) = 1
  /\ filter is_automain
       (calls (trace (run (lift fresh)
                        (decorated main_module looping (VFun 0)) 1)))
     = [AutoMain main_module]
  /\ count is_autoasync
       (calls (trace (run (lift fresh)
                        (decorated main_module looping (VFun 0)) 1))) = 1
  /\ wraps main_module looping (VFun 0)
       (run (lift fresh) (decorated main_module looping (VFun 0)) 1)
       (VFun 7).
Proof.
  pose proof (@autoparse_automain_unconditional nat (lift fresh) fresh
                main_module looping (VFun 0) 1 eq_refl) as H.
  cbv zeta beta in H.
  destruct H as (_ & _ & H).
  destruct (H (VFun 7) eq_refl) as ((H1 & H2 & _ & H4) & Hw).
  split; [reflexivity | ].
  split; [exact H1 | split; [exact H2 | split; [exact H4 | exact Hw]]].
Defined.

(** ** What each helper receives *)

(** C5. [description], [epilog], [add_nos] and [parser] go to [autoparse]
    as they were given, and [autocommand] makes no other use of them.
    Under any implementation of the helpers every [autoparse] call
    carries the four values unchanged, and what the decorator does before
    that call is the same whatever the four values are; so is the
    outcome of the callable check.  When no helper raises there is
    exactly one [autoparse] call.  Nothing but [autoparse] sees the four
    values: if [autoparse] itself disregards them, then changing them
    changes nothing, neither a call, before or after [autoparse], nor an
    answer, nor the result, nor the state left behind.  After the
    [autoparse] call a returning decorator calls [automain(module)] and
    applies its result to what [autoparse] returned, and that is all. *)
Theorem parser_options_forwarded
    (W : Type) (h : handler W) (t : total_handler W)
    (module : value) (o : options) (kw' : autoparse_kw)
    (func : value) (w : W) :
  let r := run h (decorated module o func) w in
  let rt := run (lift t) (autocommand_decorator module o func) w in
  let r' := run h (decorated module (with_parser_options o kw') func) w in
  (forall f kw, In (AutoParse f kw) (calls (trace r)) ->
     kw = {| kw_description := description o;
             kw_epilog := epilog o;
             kw_add_nos := add_nos o;
             kw_parser := parser o |})
  /\ (exists f, filter is_autoparse (calls (trace rt)) =
                [AutoParse f (parser_options o)])
  /\ before_autoparse (trace r') = before_autoparse (trace r)
  /\ (forall e,
        res (run h (autocommand module (with_parser_options o kw')) w)
          = Raised e
        <-> res (run h (autocommand module o) w) = Raised e)
  /\ ((forall f k1 k2 w0, h (AutoParse f k1) w0 = h (AutoParse f k2) w0) ->
      map_calls forget_parser_options (trace r')
        = map_calls forget_parser_options (trace r)
      /\ res r' = res r
      /\ final r' = final r)
  /\ (forall v, res r = Normal v -> wraps module o func r v).
Proof.
  intros r rt r'; subst r rt r'.
  split; [ | split; [ | split; [ | split; [ | split]]]].
  - intros f kw. open_decorator.
    destruct (callable module); simpl; [contradiction | ].
    by_kind o; repeat answer; intro H.
    all: repeat (destruct H as [H | H]; try discriminate H);
      try contradiction.
    all: injection H as _ <-; reflexivity.
  - inspect o; eexists; reflexivity.
  - open_decorator.
    destruct (callable module); simpl; [reflexivity | ].
    by_kind o; repeat answer; reflexivity.
  - intro e. unfold autocommand.
    destruct (callable module); simpl; split; intro H;
      try exact H; discriminate H.
  - intro Hign. destruct kw' as [d' e' a' p'].
    open_decorator.
    destruct (callable module); simpl; [repeat split | ].
    by_kind o.
    all: repeat first
      [ rewrite (Hign _ (AutoParseKw d' e' a' p')
                   (AutoParseKw (description o) (epilog o)
                      (add_nos o) (parser o)))
      | answer ].
    all: repeat split.
  - intros v.
    destruct (callable module) eqn:Hmod.
    + unfold decorated, autocommand. rewrite Hmod. discriminate.
    + rewrite run_decorated by exact Hmod. apply returning_run_wraps.
Qed.

Lemma parser_options_forwarded_witness :
  (forall f kw,
      In (AutoParse f kw)
        (calls (trace (run (lift fresh)
                         (decorated main_module looping (VFun 0)) 1))) ->
      kw = AutoParseKw (VStr "demo") VNone (VBool false) VNone)
  /\ before_autoparse
       (trace (run (lift fresh)
                 (decorated main_module
                    (with_parser_options looping other_parser_options)
                    (VFun 0)) 1))
     = before_autoparse
         (trace (run (lift fresh)
                   (decorated main_module looping (VFun 0)) 1))
  /\ map_calls forget_parser_options
       (trace (run (lift fresh)
                 (decorated main_module
                    (with_parser_options looping other_parser_options)
                    (VFun 0)) 1))
     = map_calls forget_parser_options
         (trace (run (lift fresh)
                   (decorated main_module looping (VFun 0)) 1)).
Proof.
  pose proof (parser_options_forwarded (lift fresh) fresh main_module
                looping other_parser_options (VFun 0) 1) as H.
  cbv zeta in H.
  destruct H as (H1 & _ & H3 & _ & H5 & _).
  split; [exact H1 | split; [exact H3 | ]].
  apply H5. intros f k1 k2 w0. reflexivity.
Defined.

(** C6. When the event-loop step is taken, [forever] goes to [autoasync]
    as it was given.  Under any implementation of the helpers every
    [autoasync] call carries [forever] unchanged; when [loop] is not
    [None] and the decorator returns there is such a call, and the
    decorator does return when no helper raises. *)
Theorem forever_forwarded
    (W : Type) (h : handler W) (t : total_handler W)
    (module : value) (o : options) (func : value) (w : W) :
  let r := run h (autocommand_decorator module o func) w in
  let rt := run (lift t) (autocommand_decorator module o func) w in
  (forall f kw, In (AutoAsync f kw) (calls (trace r)) ->
     kw_forever kw = forever o)
  /\ (loop o <> VNone -> (exists v, res r = Normal v) ->
      exists l,
        In (AutoAsync func {| kw_loop := l; kw_forever := forever o |})
          (calls (trace r)))
  /\ (loop o <> VNone ->
      (exists v, res rt = Normal v)
      /\ exists l,
        In (AutoAsync func {| kw_loop := l; kw_forever := forever o |})
          (calls (trace rt))).
Proof.
  intros r rt; subst r rt.
  split; [ | split].
  - intros f kw. analyse o; intro H.
    all: repeat (destruct H as [H | H]; try discriminate H);
      try contradiction.
    all: injection H as _ <-; reflexivity.
  - intros Hl Hr; revert Hr. analyse o; intro Hr; try absurd_return.
    all: eexists; simpl; eauto 6.
  - intro Hl. analyse o; try absurd_return.
    all: split; eexists; simpl; eauto 6.
Qed.


Lemma forever_forwarded_witness :
  exists l,
    In (AutoAsync (VFun 0) (AutoAsyncKw l (VBool true)))
      (calls (trace (run (lift fresh)
                       (autocommand_decorator main_module looping
                          (VFun 0)) 1))).
Proof.
  pose proof (forever_forwarded (lift fresh) fresh
                main_module looping (VFun 0) 1) as H.
  cbv zeta in H.
  destruct H as (_ & H2 & _).
  apply H2; [discriminate | exists (VFun 7); reflexivity].
Defined.

(** C7. [loop=True] stands for the current event loop.  When [loop] is
    [True], the decorator calls [get_event_loop()] while it decorates
    [func] (building the decorator calls nothing) and hands the loop it
    got to [autoasync].  For any other [loop] that is not [None],
    [autoasync] receives that very value and [get_event_loop()] is not
    called.  The first part of each statement holds under any
    implementation of the helpers; the run when no helper raises is
    given in full. *)
Theorem loop_true_is_current_loop
    (W : Type) (h : handler W) (t : total_handler W)
    (module : value) (o : options) (func : value) (w : W) :
  let r := run h (autocommand_decorator module o func) w in
  let rt := run (lift t) (autocommand_decorator module o func) w in
  trace (run h (autocommand module o) w) = []
  /\ (loop o = VBool true ->
      (forall f kw, In (AutoAsync f kw) (calls (trace r)) ->
         In (GetEventLoop, Normal (kw_loop kw)) (trace r))
      /\ exists i1 i2 l f1 rest,
          trace rt =
            (Import "asyncio" "get_event_loop", Normal i1)
              :: (Import ".autoasync" "autoasync", Normal i2)
              :: (GetEventLoop, Normal l)
              :: (AutoAsync func {| kw_loop := l; kw_forever := forever o |},
                  Normal f1)
              :: rest
          /\ count is_get_event_loop (calls (trace rt)) = 1)
  /\ (loop o <> VNone -> loop o <> VBool true ->
      (forall f kw, In (AutoAsync f kw) (calls (trace r)) ->
         kw_loop kw = loop o)
      /\ existsb is_get_event_loop (calls (trace r)) = false
      /\ exists i1 i2 f1 rest,
          trace rt =
            (Import "asyncio" "get_event_loop", Normal i1)
              :: (Import ".autoasync" "autoasync", Normal i2)
              :: (AutoAsync func
                    {| kw_loop := loop o; kw_forever := forever o |},
                  Normal f1)
              :: rest).
Proof.
  intros r rt; subst r rt.
  split; [ | split].
  - unfold autocommand; destruct (callable module); reflexivity.
  - intro Hl. open_decorator. rewrite Hl; simpl. split.
    + intros f kw. repeat answer; intro H.
      all: repeat (destruct H as [H | H]; try discriminate H);
        try contradiction.
      all: injection H as _ <-; simpl; auto.
    + repeat answer. do 5 eexists. split; reflexivity.
  - intros Hn Ht. split; [ | split].
    + intros f kw. analyse o; try absurd_return; intro H.
      all: repeat (destruct H as [H | H]; try discriminate H);
        try contradiction.
      all: injection H as _ <-; reflexivity.
    + analyse o; try absurd_return; reflexivity.
    + analyse o; try absurd_return.
      all: do 4 eexists; reflexivity.
Qed.


Lemma loop_true_is_current_loop_witness :
  (forall f kw,
      In (AutoAsync f kw)
        (calls (trace (run (lift fresh)
           (autocommand_decorator main_module looping (VFun 0)) 1))) ->
      In (GetEventLoop, Normal (kw_loop kw))
        (trace (run (lift fresh)
           (autocommand_decorator main_module looping (VFun 0)) 1)))
  /\ (forall f kw,
        In (AutoAsync f kw)
          (calls (trace (run (lift fresh)
             (autocommand_decorator main_module given_loop (VFun 0)) 1))) ->
        kw_loop kw = VObj 9)
  /\ existsb is_get_event_loop
       (calls (trace (run (lift fresh)
          (autocommand_decorator main_module given_loop (VFun 0)) 1)))
     = false.
Proof.
  pose proof (loop_true_is_current_loop (lift fresh) fresh
                main_module looping (VFun 0) 1) as Hl.
  pose proof (loop_true_is_current_loop (lift fresh) fresh
                main_module given_loop (VFun 0) 1) as Hg.
  cbv zeta in Hl, Hg.
  destruct Hl as (_ & Hl2 & _).
  destruct Hg as (_ & _ & Hg3).
  assert (Hn : loop given_loop <> VNone) by discriminate.
  assert (Ht : loop given_loop <> VBool true) by discriminate.
  split; [exact (proj1 (Hl2 eq_refl)) | ].
  split; [exact (proj1 (Hg3 Hn Ht)) | exact (proj1 (proj2 (Hg3 Hn Ht)))].
Defined.

(** ** Independence *)

(** C8. Without an event loop, [forever] has no effect.  Take two calls
    of [autocommand] with the same [module], both with [loop=None], whose
    keyword arguments differ at most in [forever].  Under any
    implementation of the helpers the two decorators, applied to the same
    [func] in the same state, make the same calls, leave the same state
    and return the same value or raise the same exception. *)
Theorem forever_irrelevant_without_loop
    (W : Type) (h : handler W)
    (module : value) (o1 o2 : options) (func : value) (w : W) :
  loop o1 = VNone ->
  loop o2 = VNone ->
  description o1 = description o2 ->
  epilog o1 = epilog o2 ->
  add_nos o1 = add_nos o2 ->
  parser o1 = parser o2 ->
  run h (autocommand_decorator module o1 func) w =
    run h (autocommand_decorator module o2 func) w
  /\ run h (decorated module o1 func) w = run h (decorated module o2 func) w.
Proof.
  intros L1 L2 Hd He Ha Hp.
  assert (Hdec : autocommand_decorator module o1 func =
                 autocommand_decorator module o2 func).
  { unfold autocommand_decorator.
    rewrite L1, L2, Hd, He, Ha, Hp. reflexivity. }
  split.
  - rewrite Hdec; reflexivity.
  - unfold decorated, autocommand.
    destruct (callable module); simpl; [reflexivity | ].
    rewrite Hdec; reflexivity.
Qed.


Lemma forever_irrelevant_without_loop_witness :
  run (fresh_except is_automain)
    (decorated main_module default_options (VFun 0)) 1
  = run (fresh_except is_automain)
      (decorated main_module forever_only (VFun 0)) 1.
Proof.
  exact (proj2 (@forever_irrelevant_without_loop nat
                  (fresh_except is_automain) main_module
                  default_options forever_only (VFun 0) 1
                  eq_refl eq_refl eq_refl eq_refl eq_refl eq_refl)).
Defined.

(** ** The module argument *)

(** C9. Every value that is not callable passes the check, [True] and
    [None] among them, and [automain] receives it as it was given.  Under
    any implementation of the helpers every [automain] call of the
    decorator is [automain(module)]; when the decorator returns, its
    last two calls are [automain(module)] and the application of what
    that returned, and the value of this application is what the
    decorator returns, so [automain(module)] is the outermost wrapper.
    In particular [autocommand(True)] raises nothing and its decorator
    ends with [automain(True)]. *)
Theorem module_forwarded_to_automain
    (W : Type) (h : handler W) (t : total_handler W)
    (module : value) (o : options) (func : value) (w : W) :
  callable module = false ->
  let outermost (m : value) (r : result W value) :=
    forall v, res r = Normal v ->
      exists before inner dec,
        trace r = before ++ [(AutoMain m, Normal dec);
                             (Apply dec inner, Normal v)] in
  callable VNone = false
  /\ callable (VBool true) = false
  /\ res (run h (autocommand module o) w) =
       Normal (autocommand_decorator module o)
  /\ (forall m, In (AutoMain m)
                  (calls (trace (run h (decorated module o func) w))) ->
                m = module)
  /\ outermost module (run h (decorated module o func) w)
  /\ (exists v, res (run (lift t) (decorated module o func) w) = Normal v)
  /\ res (run h (autocommand (VBool true) o) w) =
       Normal (autocommand_decorator (VBool true) o)
  /\ outermost (VBool true) (run h (decorated (VBool true) o func) w)
  /\ (exists v, res (run (lift t) (decorated (VBool true) o func) w)
                = Normal v).
Proof.
  intros Hmod outermost; subst outermost; cbv beta.
  assert (Hout : forall m, callable m = false ->
            forall v, res (run h (decorated m o func) w) = Normal v ->
            exists before inner dec,
              trace (run h (decorated m o func) w) =
                before ++ [(AutoMain m, Normal dec);
                           (Apply dec inner, Normal v)]).
  { intros m Hm v. open_decorator; rewrite Hm; simpl.
    by_loop o; repeat answer; intro H; try absurd_return;
      injection H as <-.
    all: match goal with
         | |- exists _ _ _, [?a; _; _] = _ =>
             exists [a]; do 2 eexists; reflexivity
         | |- exists _ _ _, [?a; ?b; ?c; ?d; ?e; _; _] = _ =>
             exists [a; b; c; d; e]; do 2 eexists; reflexivity
         | |- exists _ _ _, [?a; ?b; ?c; ?d; _; _] = _ =>
             exists [a; b; c; d]; do 2 eexists; reflexivity
         end. }
  assert (Htot : forall m, callable m = false ->
            exists v, res (run (lift t) (decorated m o func) w) = Normal v).
  { intros m Hm. open_decorator; rewrite Hm; simpl.
    by_loop o; repeat answer; eexists; reflexivity. }
  repeat apply conj; try reflexivity; auto.
  - unfold autocommand; rewrite Hmod; reflexivity.
  - intro m. open_decorator; rewrite Hmod; simpl.
    by_loop o; repeat answer; intro H.
    all: repeat (destruct H as [H | H]; try discriminate H);
      try contradiction.
    all: injection H as <-; reflexivity.
Qed.


Lemma module_forwarded_to_automain_witness :
  callable VNone = false
  /\ res (run (lift fresh) (autocommand VNone looping) 1)
     = Normal (autocommand_decorator VNone looping)
  /\ (forall m,
        In (AutoMain m)
          (calls (trace (run (lift fresh)
                           (decorated VNone looping (VFun 0)) 1))) ->
        m = VNone)
  /\ (exists before inner dec,
        trace (run (lift fresh) (decorated (VBool true) looping (VFun 0)) 1)
        = before ++ [(AutoMain (VBool true), Normal dec);
                     (Apply dec inner, Normal (VFun 7))]).
Proof.
  pose proof (@module_forwarded_to_automain nat (lift fresh) fresh
                VNone looping (VFun 0) 1 eq_refl) as H.
  cbv zeta beta in H.
  destruct H as (_ & _ & H3 & H4 & _ & _ & _ & H8 & _).
  split; [reflexivity | ].
  split; [exact H3 | ].
  split; [exact H4 | exact (H8 (VFun 7) eq_refl)].
Defined.

(** ** Further properties of the decorator *)

(** X2. The two imports of the event-loop step are made on demand and
    before anything else.  Under any implementation of the helpers the
    decorator's first call is the import of [get_event_loop] from
    [asyncio] when [loop] is not [None], and [autoparse(func, ...)] when it
    is; the imports it makes are an initial part of its calls, in the
    order of the source, and none when [loop] is [None].  If the first
    import fails, the decorator raises that exception after this one
    call: [func] has reached no helper. *)
Theorem imports_on_demand
    (W : Type) (h : handler W)
    (module : value) (o : options) (func : value) (w : W) :
  let r := run h (autocommand_decorator module o func) w in
  let both := [Import "asyncio" "get_event_loop";
               Import ".autoasync" "autoasync"] in
  hd_error (calls (trace r)) =
    Some (if is_None (loop o) then AutoParse func (parser_options o)
          else Import "asyncio" "get_event_loop")
  /\ (exists n,
        filter is_import (calls (trace r)) = firstn n both
        /\ firstn (length (filter is_import (calls (trace r))))
             (calls (trace r))
           = filter is_import (calls (trace r))
        /\ (loop o = VNone -> n = 0))
  /\ (forall e w1,
        loop o <> VNone ->
        h (Import "asyncio" "get_event_loop") w = (Raised e, w1) ->
        r = Result (Raised e) w1
              [(Import "asyncio" "get_event_loop", Raised e)]).
Proof.
  intros r both; subst r both.
  split; [ | split].
  - inspect o; reflexivity.
  - assert (Hn : loop o = VNone -> is_None (loop o) = true)
      by (intro Hn; rewrite Hn; reflexivity).
    revert Hn. inspect o; intro Hn.
    all: first
      [ exists 0; repeat split; fail
      | exists 1; repeat split; intro Hl; discriminate (Hn Hl)
      | exists 2; repeat split; intro Hl; discriminate (Hn Hl) ].
  - intros e w1 Hl Hi. open_decorator.
    destruct (is_None (loop o)) eqn:Hn; simpl.
    + apply is_None_true in Hn. now elim Hl.
    + rewrite Hi; reflexivity.
Qed.

Lemma imports_on_demand_witness :
  run (fresh_except is_import)
    (autocommand_decorator main_module looping (VFun 0)) 1
  = Result (Raised (RuntimeError "failed")) 1
      [(Import "asyncio" "get_event_loop", Raised (RuntimeError "failed"))].
Proof.
  pose proof (imports_on_demand (fresh_except is_import)
                main_module looping (VFun 0) 1) as H.
  cbv zeta in H.
  destruct H as (_ & _ & H3).
  apply H3; [discriminate | reflexivity].
Defined.

(** X3. The decorator never calls [func] and never hands it on twice.
    Under any implementation of the helpers, raising or not: whatever is
    applied is what [automain(module)] returned, and it is applied to
    what [autoparse] returned; [autoparse] receives [func] itself when
    [loop] is [None] and otherwise what [autoasync(func, ...)] returned;
    at most one application is made, and it is the last call. *)
Theorem helpers_feed_each_other
    (W : Type) (h : handler W)
    (module : value) (o : options) (func : value) (w : W) :
  let r := run h (autocommand_decorator module o func) w in
  (forall f x, In (Apply f x) (calls (trace r)) ->
     In (AutoMain module, Normal f) (trace r)
     /\ exists inner kw, In (AutoParse inner kw, Normal x) (trace r))
  /\ (forall inner kw, In (AutoParse inner kw) (calls (trace r)) ->
      if is_None (loop o) then inner = func
      else exists akw, In (AutoAsync func akw, Normal inner) (trace r))
  /\ count is_apply (calls (trace r)) <= 1
  /\ existsb is_apply (calls (earlier (trace r))) = false.
Proof.
  intro r; subst r.
  split; [ | split; [ | split]].
  - intros f x. inspect o; intro H.
    all: repeat (destruct H as [H | H]; try discriminate H);
      try contradiction.
    all: injection H as <- <-; split;
      [simpl; auto 10 | do 2 eexists; simpl; eauto 10].
  - intros inner kw. inspect o; intro H.
    all: repeat (destruct H as [H | H]; try discriminate H);
      try contradiction.
    all: injection H as <- _; try reflexivity; eexists; simpl; eauto 10.
  - inspect o; unfold count; simpl; lia.
  - inspect o; reflexivity.
Qed.

Lemma helpers_feed_each_other_witness :
  In (Apply (VFun 6) (VFun 5))
    (calls (trace (run (fresh_except is_apply)
                     (autocommand_decorator main_module looping
                        (VFun 0)) 1)))
  /\ In (AutoMain main_module, Normal (VFun 6))
       (trace (run (fresh_except is_apply)
                 (autocommand_decorator main_module looping (VFun 0)) 1)).
Proof.
  assert (H : In (Apply (VFun 6) (VFun 5))
                (calls (trace (run (fresh_except is_apply)
                                 (autocommand_decorator main_module looping
                                    (VFun 0)) 1)))).
  { simpl. auto 10. }
  split; [exact H | ].
  exact (proj1 (proj1 (helpers_feed_each_other (fresh_except is_apply)
                         main_module looping (VFun 0) 1)
                  (VFun 6) (VFun 5) H)).
Defined.

(** X4. [module] reaches [automain] and nothing else.  Take two values
    for [module], neither callable, and the same keyword arguments and
    [func].  Under any implementation of the helpers the two decorators
    behave alike up to the [automain] call: the same calls with the same
    answers.  The [automain] call, when it is reached, is reached in both
    runs.  If [automain] itself answers alike for the two values, the two
    runs are alike throughout: the same calls but for the argument of
    [automain], the same answers, the same result, the same state left
    behind, so that no other call, before or after, and no returned value
    holds [module].  A decorator that returns has made one [automain]
    call, on [module], and returns the value of applying its answer. *)
Theorem module_only_reaches_automain
    (W : Type) (h : handler W)
    (m1 m2 : value) (o : options) (func : value) (w : W) :
  callable m1 = false ->
  callable m2 = false ->
  let r1 := run h (decorated m1 o func) w in
  let r2 := run h (decorated m2 o func) w in
  before_automain (trace r1) = before_automain (trace r2)
  /\ (In (AutoMain m1) (calls (trace r1))
      <-> In (AutoMain m2) (calls (trace r2)))
  /\ ((forall w0, h (AutoMain m1) w0 = h (AutoMain m2) w0) ->
      map_calls forget_module (trace r1) = map_calls forget_module (trace r2)
      /\ res r1 = res r2
      /\ final r1 = final r2)
  /\ (forall v, res r1 = Normal v -> wraps m1 o func r1 v).
Proof.
  intros H1 H2 r1 r2; subst r1 r2.
  rewrite !run_decorated by assumption.
  split; [ | split; [ | split]].
  - inspect o; reflexivity.
  - open_decorator. by_kind o.
    all: repeat
      match goal with
      | |- context [match ?h ?c ?w with pair _ _ => _ end] =>
          lazymatch c with
          | AutoMain _ => fail
          | _ => destruct (h c w) as [[? | ?] ?]; simpl
          end
      end.
    all: try (split; intro H;
              repeat (destruct H as [H | H]; try discriminate H);
              contradiction).
    all: destruct (h (AutoMain m1) _) as [[? | ?] ?];
      destruct (h (AutoMain m2) _) as [[? | ?] ?]; simpl.
    all: repeat answer; split; intros _; simpl; auto 10.
  - intro Hsame. open_decorator. by_kind o.
    all: repeat first [ rewrite Hsame | answer ].
    all: repeat split.
  - intros v. apply returning_run_wraps.
Qed.

Lemma module_only_reaches_automain_witness :
  before_automain
    (trace (run (lift fresh) (decorated main_module looping (VFun 0)) 1))
  = before_automain
      (trace (run (lift fresh) (decorated (VBool true) looping (VFun 0)) 1))
  /\ map_calls forget_module
       (trace (run (lift fresh) (decorated main_module looping (VFun 0)) 1))
     = map_calls forget_module
         (trace (run (lift fresh)
                   (decorated (VBool true) looping (VFun 0)) 1))
  /\ res (run (lift fresh) (decorated main_module looping (VFun 0)) 1)
     = res (run (lift fresh) (decorated (VBool true) looping (VFun 0)) 1).
Proof.
  pose proof (@module_only_reaches_automain nat (lift fresh)
                main_module (VBool true) looping (VFun 0) 1
                eq_refl eq_refl) as H.
  cbv zeta in H.
  destruct H as (Ha & _ & Hb & _).
  assert (Hsame : forall w0,
             lift fresh (AutoMain main_module) w0
             = lift fresh (AutoMain (VBool true)) w0)
    by (intro w0; reflexivity).
  destruct (Hb Hsame) as (Hc & Hd & _).
  split; [exact Ha | split; [exact Hc | exact Hd]].
Defined.

(** ** The call of [autocommand]: binding the arguments *)

Lemma mem_In (k : string) (ks : list string) : mem k ks = true <-> In k ks.
Proof.
  unfold mem. rewrite existsb_exists. split.
  - intros (x & Hx & E). apply String.eqb_eq in E. now subst.
  - intro H. exists k. split; [exact H | apply String.eqb_refl].
Qed.

Lemma check_keywords_type_error
    (kwargs : list (string * value)) (filled : list string) (e : exn) :
  check_keywords filled kwargs = Some e -> exists msg, e = TypeError msg.
Proof.
  revert filled; induction kwargs as [ | [k v] rest IH]; intro filled;
    cbn [check_keywords]; [discriminate | ].
  destruct (mem k parameters); cbn [negb].
  - destruct (mem k filled).
    + intro H; injection H as <-. eexists; reflexivity.
    + apply IH.
  - intro H; injection H as <-. eexists; reflexivity.
Qed.

(** The keywords pass when each names a parameter that has no value yet
    and none comes twice. *)
Lemma check_keywords_None
    (kwargs : list (string * value)) (filled : list string) :
  check_keywords filled kwargs = None <->
  (forall k, In k (map fst kwargs) -> In k parameters /\ ~ In k filled)
  /\ NoDup (map fst kwargs).
Proof.
  revert filled; induction kwargs as [ | [k v] rest IH]; intro filled.
  - simpl. split; [ | reflexivity].
    intros _. split; [contradiction | constructor].
  - cbn [check_keywords map fst].
    destruct (mem k parameters) eqn:Hp; cbn [negb].
    + destruct (mem k filled) eqn:Hf.
      * split; [discriminate | ].
        intros [Hall _]. destruct (Hall k (or_introl eq_refl)) as [_ Hn].
        apply mem_In in Hf. contradiction.
      * rewrite IH. apply mem_In in Hp.
        assert (Hnf : ~ In k filled).
        { intro Hin. apply mem_In in Hin. congruence. }
        split.
        -- intros [Hall Hnd]. split.
           ++ intros k' [<- | Hin]; [split; assumption | ].
              destruct (Hall k' Hin) as [Hk Hn].
              split; [exact Hk | ]. intro Hin'. apply Hn. now right.
           ++ constructor; [ | exact Hnd].
              intro Hin. destruct (Hall k Hin) as [_ Hn].
              apply Hn. now left.
        -- intros [Hall Hnd]. inversion Hnd as [ | ? ? Hnotin Hnd']; subst.
           split; [ | exact Hnd'].
           intros k' Hin. destruct (Hall k' (or_intror Hin)) as [Hk Hn].
           split; [exact Hk | ].
           intros [<- | Hin']; [exact (Hnotin Hin) | exact (Hn Hin')].
    + split; [discriminate | ].
      intros [Hall _]. destruct (Hall k (or_introl eq_refl)) as [Hk _].
      apply mem_In in Hk. congruence.
Qed.

Lemma lookup_None (k : string) (kwargs : list (string * value)) :
  lookup k kwargs = None <-> ~ In k (map fst kwargs).
Proof.
  induction kwargs as [ | [k' v] rest IH]; simpl.
  - split; [intros _ H; exact H | reflexivity].
  - destruct (String.eqb k k') eqn:E.
    + apply String.eqb_eq in E. subst k'.
      split; [discriminate | ]. intro H. elim H. now left.
    + apply String.eqb_neq in E. rewrite IH.
      split.
      * intros H [Hk | Hin]; [congruence | exact (H Hin)].
      * intros H Hin. apply H. now right.
Qed.

Lemma lookup_In (k : string) (v : value) (kwargs : list (string * value)) :
  NoDup (map fst kwargs) ->
  lookup k kwargs = Some v <-> In (k, v) kwargs.
Proof.
  induction kwargs as [ | [k' v'] rest IH]; simpl; intro Hnd.
  - split; [discriminate | contradiction].
  - inversion Hnd as [ | ? ? Hnotin Hnd']; subst.
    destruct (String.eqb k k') eqn:E.
    + apply String.eqb_eq in E. subst k'. split.
      * intro H; injection H as <-. now left.
      * intros [H | H]; [injection H as <-; reflexivity | ].
        elim Hnotin. apply (in_map fst) in H. exact H.
    + apply String.eqb_neq in E. rewrite (IH Hnd'). split.
      * intro H. now right.
      * intros [H | H]; [injection H as <- _; now elim E | exact H].
Qed.

Lemma lookup_permutation
    (k : string) (kwargs kwargs' : list (string * value)) :
  NoDup (map fst kwargs) ->
  Permutation kwargs kwargs' ->
  lookup k kwargs = lookup k kwargs'.
Proof.
  intros Hnd Hp.
  assert (Hnd' : NoDup (map fst kwargs')).
  { eapply Permutation_NoDup; [ | exact Hnd].
    apply Permutation_map. exact Hp. }
  destruct (lookup k kwargs) as [v | ] eqn:E; symmetry.
  - apply (proj2 (@lookup_In k v kwargs' Hnd')). apply (Permutation_in _ Hp).
    apply (proj1 (@lookup_In k v kwargs Hnd)). exact E.
  - apply lookup_None. intro Hin.
    apply lookup_None in E. apply E.
    eapply Permutation_in; [ | exact Hin].
    apply Permutation_map. apply Permutation_sym. exact Hp.
Qed.

Lemma bind_arguments_permutation
    (args : list value) (kwargs kwargs' : list (string * value))
    (m : value) (o : options) :
  Permutation kwargs kwargs' ->
  bind_arguments args kwargs = Normal (m, o) ->
  bind_arguments args kwargs' = Normal (m, o).
Proof.
  intros Hp. unfold bind_arguments.
  destruct (check_keywords _ kwargs) as [e | ] eqn:Hc; [discriminate | ].
  apply check_keywords_None in Hc. destruct Hc as [Hall Hnd].
  assert (Hc' : check_keywords
                  (match args with [] => [] | _ :: _ => ["module"] end)
                  kwargs' = None).
  { apply check_keywords_None. split.
    - intros k Hin. apply Hall.
      eapply Permutation_in; [ | exact Hin].
      apply Permutation_map. apply Permutation_sym. exact Hp.
    - eapply Permutation_NoDup; [ | exact Hnd].
      apply Permutation_map. exact Hp. }
  rewrite Hc'.
  assert (Ho : options_of kwargs' = options_of kwargs).
  { unfold options_of, keyword.
    rewrite !(fun k => @lookup_permutation k kwargs kwargs' Hnd Hp).
    reflexivity. }
  rewrite Ho, <- (@lookup_permutation "module" kwargs kwargs' Hnd Hp).
  intro H; exact H.
Qed.

Lemma run_call_autocommand
    (W : Type) (h : handler W)
    (args : list value) (kwargs : list (string * value)) (w : W) :
  run h (call_autocommand args kwargs) w =
  Result
    (match bind_arguments args kwargs with
     | Normal (m, o) =>
         if callable m then Raised (TypeError requires_module_name)
         else Normal (autocommand_decorator m o)
     | Raised e => Raised e
     end) w [].
Proof.
  unfold call_autocommand, autocommand.
  destruct (bind_arguments args kwargs) as [[m o] | e]; [ | reflexivity].
  destruct (callable m); reflexivity.
Qed.

Lemma bind_arguments_type_error
    (args : list value) (kwargs : list (string * value)) (e : exn) :
  bind_arguments args kwargs = Raised e -> exists msg, e = TypeError msg.
Proof.
  unfold bind_arguments.
  destruct (check_keywords _ kwargs) as [e' | ] eqn:Hc.
  - intro H; injection H as <-.
    exact (@check_keywords_type_error kwargs _ e' Hc).
  - destruct args as [ | m [ | m' rest]].
    + destruct (lookup "module" kwargs); [discriminate | ].
      intro H; injection H as <-. eexists; reflexivity.
    + discriminate.
    + intro H; injection H as <-. eexists; reflexivity.
Qed.

(** X6. The configuration of [autocommand] is keyword-only and closed.
    A call with two or more positional arguments, with a keyword that is
    not a parameter, with no [module] at all, or with [module] given both
    by position and by name, raises [TypeError].  Whatever the arguments
    are, the call itself reaches no helper and leaves the state as it
    was, and a [TypeError] is all it can raise.  When it returns, exactly
    one [module] was given, it is not callable, and what is returned is
    the decorator for that [module] with the given keywords, the others at
    their defaults. *)
Theorem bad_call_is_type_error
    (W : Type) (h : handler W)
    (args : list value) (kwargs : list (string * value)) (w : W) :
  let r := run h (call_autocommand args kwargs) w in
  trace r = [] /\ final r = w
  /\ (forall e, res r = Raised e -> exists msg, e = TypeError msg)
  /\ (2 <= length args -> exists msg, res r = Raised (TypeError msg))
  /\ (forall k, In k (map fst kwargs) -> ~ In k parameters ->
      exists msg, res r = Raised (TypeError msg))
  /\ (args = [] -> lookup "module" kwargs = None ->
      exists msg, res r = Raised (TypeError msg))
  /\ (args <> [] -> In "module" (map fst kwargs) ->
      exists msg, res r = Raised (TypeError msg))
  /\ (forall dec, res r = Normal dec ->
      exists m,
        (args = [m] \/ (args = [] /\ lookup "module" kwargs = Some m))
        /\ callable m = false
        /\ dec = autocommand_decorator m (options_of kwargs)).
Proof.
  intro r; subst r. rewrite run_call_autocommand. cbn [res final trace].
  assert (Hfail : forall e, bind_arguments args kwargs = Raised e ->
            exists msg,
              match bind_arguments args kwargs with
              | Normal (m, o) =>
                  if callable m
                  then Raised (TypeError requires_module_name)
                  else Normal (autocommand_decorator m o)
              | Raised e => Raised e
              end = Raised (TypeError msg)).
  { intros e He. destruct (@bind_arguments_type_error args kwargs e He) as [msg ->].
    rewrite He. eexists; reflexivity. }
  assert (Hcheck : forall e,
            check_keywords
              (match args with [] => [] | _ :: _ => ["module"] end)
              kwargs = Some e ->
            bind_arguments args kwargs = Raised e).
  { intros e He. unfold bind_arguments. rewrite He. reflexivity. }
  repeat apply conj; try reflexivity.
  - intros e.
    destruct (bind_arguments args kwargs) as [[m o] | e'] eqn:Hb.
    + destruct (callable m); [ | discriminate].
      intro H; injection H as <-. eexists; reflexivity.
    + intro H; injection H as <-.
      exact (@bind_arguments_type_error args kwargs e' Hb).
  - intro Hlen.
    destruct (check_keywords
                (match args with [] => [] | _ :: _ => ["module"] end)
                kwargs) as [e | ] eqn:Hc.
    + exact (Hfail e (Hcheck e eq_refl)).
    + apply (Hfail too_many_positional).
      unfold bind_arguments. rewrite Hc.
      destruct args as [ | m [ | m' rest]]; simpl in Hlen; try lia.
      reflexivity.
  - intros k Hin Hnot.
    destruct (check_keywords
                (match args with [] => [] | _ :: _ => ["module"] end)
                kwargs) as [e | ] eqn:Hc.
    + exact (Hfail e (Hcheck e eq_refl)).
    + apply check_keywords_None in Hc. destruct Hc as [Hall _].
      elim Hnot. exact (proj1 (Hall k Hin)).
  - intros -> Hl.
    destruct (check_keywords [] kwargs) as [e | ] eqn:Hc.
    + exact (Hfail e (Hcheck e eq_refl)).
    + apply (Hfail missing_module).
      unfold bind_arguments. rewrite Hc, Hl. reflexivity.
  - intros Hargs Hin.
    destruct args as [ | m rest]; [now elim Hargs | ].
    destruct (check_keywords ["module"] kwargs) as [e | ] eqn:Hc.
    + exact (Hfail e (Hcheck e eq_refl)).
    + apply check_keywords_None in Hc. destruct Hc as [Hall _].
      elim (proj2 (Hall "module" Hin)). now left.
  - intro dec. unfold bind_arguments.
    destruct (check_keywords _ kwargs); [discriminate | ].
    destruct args as [ | m [ | m' rest]].
    + destruct (lookup "module" kwargs) as [m | ] eqn:Hl; [ | discriminate].
      destruct (callable m) eqn:Hm; [discriminate | ].
      intro H; injection H as <-. exists m. auto.
    + destruct (callable m) eqn:Hm; [discriminate | ].
      intro H; injection H as <-. exists m. auto.
    + discriminate.
Qed.

Lemma bad_call_is_type_error_witness :
  (exists msg,
      res (run (lift fresh)
             (call_autocommand [main_module; VStr "demo"] []) 1)
      = Raised (TypeError msg))
  /\ (exists msg,
        res (run (lift fresh)
               (call_autocommand [main_module] [("loops", VBool true)]) 1)
        = Raised (TypeError msg))
  /\ (exists msg,
        res (run (lift fresh) (call_autocommand [] demo_keywords) 1)
        = Raised (TypeError msg))
  /\ (exists msg,
        res (run (lift fresh)
               (call_autocommand [main_module] [("module", VNone)]) 1)
        = Raised (TypeError msg)).
Proof.
  pose proof (bad_call_is_type_error (lift fresh)
                [main_module; VStr "demo"] [] 1) as H1.
  pose proof (bad_call_is_type_error (lift fresh)
                [main_module] [("loops", VBool true)] 1) as H2.
  pose proof (bad_call_is_type_error (lift fresh) [] demo_keywords 1) as H3.
  pose proof (bad_call_is_type_error (lift fresh)
                [main_module] [("module", VNone)] 1) as H4.
  cbv zeta in H1, H2, H3, H4.
  destruct H1 as (_ & _ & _ & H1 & _).
  destruct H2 as (_ & _ & _ & _ & H2 & _).
  destruct H3 as (_ & _ & _ & _ & _ & H3 & _).
  destruct H4 as (_ & _ & _ & _ & _ & _ & H4 & _).
  split; [apply H1; simpl; lia | ].
  split.
  - apply (H2 "loops"); [simpl; auto | ].
    simpl. intros [H | [H | [H | [H | [H | [H | [H | H]]]]]]];
      try discriminate H; exact H.
  - split; [apply H3; reflexivity | ].
    apply H4; [discriminate | simpl; auto].
Defined.

(** X7. Keyword arguments are matched by name: their order in the call
    does not matter.  Two calls with the same positional arguments whose
    keyword arguments are rearrangements of each other bind the same
    [module] and the same options, or both fail; and when they bind,
    the two decorators behave alike under any implementation of the
    helpers. *)
Theorem keyword_order_irrelevant
    (W : Type) (h : handler W)
    (args : list value) (kwargs kwargs' : list (string * value))
    (func : value) (w : W) :
  Permutation kwargs kwargs' ->
  (forall m o, bind_arguments args kwargs = Normal (m, o)
               <-> bind_arguments args kwargs' = Normal (m, o))
  /\ ((exists e, bind_arguments args kwargs = Raised e)
      <-> (exists e, bind_arguments args kwargs' = Raised e))
  /\ ((exists p, bind_arguments args kwargs = Normal p) ->
      run h (called args kwargs func) w = run h (called args kwargs' func) w).
Proof.
  intro Hp.
  assert (Hp' : Permutation kwargs' kwargs) by (apply Permutation_sym; exact Hp).
  split; [ | split].
  - intros m o. split; apply bind_arguments_permutation; assumption.
  - split; intros [e He].
    + destruct (bind_arguments args kwargs') as [[m o] | e'] eqn:Hb;
        [ | eexists; reflexivity].
      rewrite (@bind_arguments_permutation args kwargs' kwargs m o Hp' Hb) in He.
      discriminate.
    + destruct (bind_arguments args kwargs) as [[m o] | e'] eqn:Hb;
        [ | eexists; reflexivity].
      rewrite (@bind_arguments_permutation args kwargs kwargs' m o Hp Hb) in He.
      discriminate.
  - intros [[m o] Hb].
    unfold called, call_autocommand.
    rewrite (@bind_arguments_permutation args kwargs kwargs' m o Hp Hb), Hb.
    reflexivity.
Qed.

Lemma keyword_order_irrelevant_witness :
  Permutation demo_keywords (rev demo_keywords)
  /\ run (lift fresh) (called [main_module] demo_keywords (VFun 0)) 1
     = run (lift fresh) (called [main_module] (rev demo_keywords) (VFun 0)) 1.
Proof.
  split; [apply Permutation_rev | ].
  apply (@keyword_order_irrelevant nat (lift fresh) [main_module]
           demo_keywords (rev demo_keywords) (VFun 0) 1
           (Permutation_rev demo_keywords)).
  eexists. reflexivity.
Defined.

(** X8. The event-loop step is off by default.  A call
    [autocommand(module, ...)] that gives no [loop] keyword either raises
    the [TypeError] of a bad call or of a callable [module], having called
    nothing, or returns a decorator that, under any implementation of the
    helpers, makes no import, calls neither [get_event_loop()] nor
    [autoasync], and starts with [autoparse(func, ...)] on the function as
    it came, with every parser keyword that was left out at its
    default. *)
Theorem no_loop_keyword_no_event_loop
    (W : Type) (h : handler W)
    (module : value) (kwargs : list (string * value))
    (func : value) (w : W) :
  lookup "loop" kwargs = None ->
  let r := run h (called [module] kwargs func) w in
  existsb (fun c => is_import c || is_get_event_loop c || is_autoasync c)
    (calls (trace r)) = false
  /\ ((exists msg, res r = Raised (TypeError msg) /\ trace r = [])
      \/ hd_error (calls (trace r)) =
         Some (AutoParse func
                 {| kw_description := keyword "description" VNone kwargs;
                    kw_epilog := keyword "epilog" VNone kwargs;
                    kw_add_nos := keyword "add_nos" (VBool false) kwargs;
                    kw_parser := keyword "parser" VNone kwargs |}))
  /\ (forall v, res r = Normal v ->
      wrappers (calls (trace r)) = [ByAutoParse; ByAutoMain]).
Proof.
  intros Hl r; subst r.
  unfold called, call_autocommand, bind_arguments.
  destruct (check_keywords ["module"] kwargs) as [e | ] eqn:Hc.
  - destruct (@check_keywords_type_error kwargs _ e Hc) as [msg ->].
    cbn. split; [reflexivity | split; [ | discriminate]].
    left. eexists; split; reflexivity.
  - unfold autocommand. destruct (callable module).
    + cbn. split; [reflexivity | split; [ | discriminate]].
      left. eexists; split; reflexivity.
    + assert (Ho : loop (options_of kwargs) = VNone).
      { unfold options_of, keyword. cbn [loop]. rewrite Hl. reflexivity. }
      cbn [bind]. unfold autocommand_decorator, perform.
      rewrite Ho. simpl.
      repeat answer; (split; [reflexivity | split; [right; reflexivity | ]]);
        intros res0 Hv; try discriminate Hv; reflexivity.
Qed.

Lemma no_loop_keyword_no_event_loop_witness :
  lookup "loop" demo_keywords = None
  /\ existsb (fun c => is_import c || is_get_event_loop c || is_autoasync c)
       (calls (trace (run (fresh_except is_automain)
                        (called [main_module] demo_keywords (VFun 0)) 1)))
     = false.
Proof.
  split; [reflexivity | ].
  exact (proj1 (@no_loop_keyword_no_event_loop nat
                  (fresh_except is_automain) main_module demo_keywords
                  (VFun 0) 1 eq_refl)).
Defined.
